(** * pygatt: the BLE device session ([pygatt/device.py])

    A shallow embedding of [BLEDevice]: handle resolution against the cached
    service catalog ([__find_char], [get_handle]), subscription management
    ([_notification_handles], [subscribe], [unsubscribe]) and notification
    dispatch ([receive_notification]).

    Python state becomes explicit: a method is a function from the state of
    the session and of its collaborators to a result (a value or a raised
    exception) and the state it leaves behind.  Calls that leave the class
    (service discovery, a write on the wire, a user callback) are recorded in
    a trace, so that "how many writes" is a statement about that trace.
    Calls to [log] change nothing that the methods read and are left out. *)

From Stdlib Require Import ZArith NArith Strings.Byte Strings.Ascii.
From stdpp Require Import base option list strings gmap.

Open Scope Z_scope.

(** ** Data *)

(** [uuid.UUID] of the Python standard library: a 128-bit integer; [==]
    between two of them compares that integer. *)
Record UUID := mkUUID { int : N }.

#[global] Instance UUID_eq_dec : EqDecision UUID.
Proof. solve_decision. Defined.

(** What the standard library does with UUIDs and the device relies on:
    [UUID(s)] for a string [s] (it raises [ValueError] on a malformed one,
    here [None]) and [str(u)], used by the [%s] of the error message. *)
Class UuidLib := {
  UUID_of_str : string → option UUID;
  str_of_UUID : UUID → string
}.

#[global] Instance byte_eq_dec : EqDecision byte := Byte.byte_eq_dec.

(** A [bytearray]. *)
Abbreviation bytes := (list byte).

(** Modelled from the spec: the classes of the catalog objects that
    [discover()] returns are not in [device.py].  A characteristic carries
    its UUID and its handle; a service carries its UUID and a dictionary of
    characteristics; either one compares equal ([==]) to a UUID exactly when
    its own UUID is that one. *)
Record Characteristic := mkCharacteristic {
  chr_uuid : UUID;
  handle : Z
}.

Record Service := mkService {
  svc_uuid : UUID;
  characteristics : list (string * Characteristic)
}.

#[global] Instance Characteristic_eq_dec : EqDecision Characteristic.
Proof. solve_decision. Defined.

(** [self._services]: a dictionary, read only through [.items()], whose
    order decides which match comes first; the keys are never looked at. *)
Abbreviation Services := (list (string * Service)).

(** A callback is a Python callable, hashed and compared by identity. *)
Abbreviation Callback := positive.

(** The attributes of a [BLEDevice].  [_address] is never read by the methods
    below; [_lock] is held around the bodies marked "with self._lock", which
    in this sequential model run as they are. *)
Record BLEDevice := mkBLEDevice {
  _services : Services;
  _callbacks : gmap Z (gset Callback);
  _subscribed_handlers : gmap Z bytes
}.

Definition init : BLEDevice :=
  {| _services := []; _callbacks := ∅; _subscribed_handlers := ∅ |}.

(** ** Exceptions and results *)

Inductive exn :=
| ValueError                      (* raised by [UUID(...)] *)
| BLEError (message : string)     (* [exceptions.BLEError] *)
| Raised (what : string).         (* anything a collaborator raises *)

Inductive result (A : Type) :=
| Ok (a : A)
| Raise (e : exn).
Arguments Ok {A} a.
Arguments Raise {A} e.

#[global] Instance exn_eq_dec : EqDecision exn.
Proof. solve_decision. Defined.

(** ** Collaborators

    [BLEDevice] is an abstract class: [discover] and [char_write_handle] are
    supplied by the backend that subclasses it, and callbacks by the user.
    Their behaviour is a function of a state [W] of their own; each may
    raise.  A callback is assumed not to call back into the session (with
    the non-reentrant [_lock] held during dispatch, [subscribe],
    [unsubscribe] and [receive_notification] would block for ever). *)
Class Collaborators (W : Type) := {
  discover : W → result Services * W;
  char_write_handle : Z → bytes → bool → W → result unit * W;
  call : Callback → Z → bytes → W → result unit * W
}.

(** What leaves the class. *)
Inductive event :=
| Discover
| Write (h : Z) (value : bytes) (wait_for_response : bool)
| Call (cb : Callback) (h : Z) (value : bytes).

#[global] Instance event_eq_dec : EqDecision event.
Proof. solve_decision. Defined.

Record State (W : Type) := mkState {
  device : BLEDevice;
  world : W;
  trace : list event
}.
Arguments mkState {W} _ _ _.
Arguments device {W} _.
Arguments world {W} _.
Arguments trace {W} _.

(** ** The monad of methods: state, and exceptions that keep the state *)

Definition M (W A : Type) : Type := State W → result A * State W.

Definition ret {W A} (a : A) : M W A := fun s => (Ok a, s).

Definition raise {W A} (e : exn) : M W A := fun s => (Raise e, s).

Definition bind {W A B} (m : M W A) (k : A → M W B) : M W B :=
  fun s => match m s with
           | (Ok a, s') => k a s'
           | (Raise e, s') => (Raise e, s')
           end.

#[global] Instance M_ret {W} : MRet (M W) := fun A => ret.
#[global] Instance M_bind {W} : MBind (M W) := fun A B k m => bind m k.

Definition get_device {W} : M W BLEDevice := fun s => (Ok (device s), s).

Definition put_device {W} (d : BLEDevice) : M W unit :=
  fun s => (Ok tt, mkState d (world s) (trace s)).

(** A call to a collaborator: logged first, then run on the world. *)
Definition extern {W A} (ev : event) (f : W → result A * W) : M W A :=
  fun s => let (r, w) := f (world s) in
           (r, mkState (device s) w (trace s ++ [ev])).

(** [for x in l: body(x)] *)
Fixpoint for_each {W A} (l : list A) (body : A → M W unit) : M W unit :=
  match l with
  | [] => ret tt
  | x :: l' => body x ;; for_each l' body
  end.

(** ** The methods *)

(** The inner loop of [__find_char], over [srvc_obj.characteristics.items()]. *)
Fixpoint find_in_service (chars : list (string * Characteristic))
    (char_uuid : UUID) : option Characteristic :=
  match chars with
  | [] => None
  | (_, char_obj) :: chars' =>
      if decide (chr_uuid char_obj = char_uuid) then Some char_obj
      else find_in_service chars' char_uuid
  end.

(** [srvc_uuid is None or srvc_uuid == srvc_obj] *)
Definition service_selected (srvc_uuid : option UUID) (srvc_obj : Service) : bool :=
  match srvc_uuid with
  | None => true
  | Some u => bool_decide (u = svc_uuid srvc_obj)
  end.

Fixpoint __find_char (services : Services) (char_uuid : UUID)
    (srvc_uuid : option UUID) : option Characteristic :=
  match services with
  | [] => None
  | (_, srvc_obj) :: services' =>
      if service_selected srvc_uuid srvc_obj then
        match find_in_service (characteristics srvc_obj) char_uuid with
        | Some char_obj => Some char_obj
        | None => __find_char services' char_uuid srvc_uuid
        end
      else __find_char services' char_uuid srvc_uuid
  end.

(** An argument typed "str or UUID". *)
Inductive uuid_arg :=
| Str (s : string)
| Obj (u : UUID).

Section Methods.
Context `{UuidLib} {W : Type} `{Collaborators W}.

(** [if isinstance(x, string_type): x = UUID(x)] *)
Definition to_UUID (x : uuid_arg) : M W UUID :=
  match x with
  | Str s => match UUID_of_str s with
             | Some u => ret u
             | None => raise ValueError
             end
  | Obj u => ret u
  end.

(** ["No characteristic found matching %s %s" % (char_uuid, srvc_uuid or '')] *)
Definition not_found_message (char_uuid : UUID) (srvc_uuid : option UUID) : string :=
  "No characteristic found matching " +:+ str_of_UUID char_uuid +:+ " " +:+
  match srvc_uuid with Some u => str_of_UUID u | None => "" end.

Definition get_handle (char_uuid : uuid_arg) (srvc_uuid : option uuid_arg) : M W Z :=
  char_uuid ← to_UUID char_uuid;
  srvc_uuid ← match srvc_uuid with
              | Some x => u ← to_UUID x; ret (Some u)
              | None => ret None
              end;
  self ← get_device;
  let characteristic := __find_char (_services self) char_uuid srvc_uuid in
  match characteristic with
  | None =>
      services ← extern Discover discover;
      put_device {| _services := services;
                    _callbacks := _callbacks self;
                    _subscribed_handlers := _subscribed_handlers self |}
  | Some _ => ret tt
  end;;
  self ← get_device;
  let characteristic := __find_char (_services self) char_uuid srvc_uuid in
  match characteristic with
  | None => raise (BLEError (not_found_message char_uuid srvc_uuid))
  | Some characteristic => ret (handle characteristic)
  end.

Definition _notification_handles (uuid : uuid_arg) (srvc_uuid : option uuid_arg)
    : M W (Z * Z) :=
  value_handle ← get_handle uuid srvc_uuid;
  let characteristic_config_handle := value_handle + 1 in
  ret (value_handle, characteristic_config_handle).

(** [self._callbacks[h].add(cb)] on a [defaultdict(set)] *)
Definition add_callback (h : Z) (cb : Callback)
    (callbacks : gmap Z (gset Callback)) : gmap Z (gset Callback) :=
  <[h := default ∅ (callbacks !! h) ∪ {[cb]}]> callbacks.

Definition subscribe (uuid : uuid_arg) (srvc_uuid : option uuid_arg)
    (callback : option Callback) (indication : bool) : M W unit :=
  '(value_handle, characteristic_config_handle) ←
      _notification_handles uuid srvc_uuid;
  let properties : bytes := [if indication then x02 else x01; x00]%byte in
  match callback with
  | Some cb =>
      self ← get_device;
      put_device {| _services := _services self;
                    _callbacks := add_callback value_handle cb (_callbacks self);
                    _subscribed_handlers := _subscribed_handlers self |}
  | None => ret tt
  end;;
  self ← get_device;
  if decide (_subscribed_handlers self !! value_handle ≠ Some properties) then
    extern (Write characteristic_config_handle properties false)
           (char_write_handle characteristic_config_handle properties false);;
    self ← get_device;
    put_device {| _services := _services self;
                  _callbacks := _callbacks self;
                  _subscribed_handlers :=
                    <[value_handle := properties]> (_subscribed_handlers self) |}
  else ret tt.

Definition unsubscribe (uuid : uuid_arg) : M W unit :=
  '(value_handle, characteristic_config_handle) ←
      _notification_handles uuid None;
  let properties : bytes := [x00; x00]%byte in
  self ← get_device;
  put_device {| _services := _services self;
                _callbacks := delete value_handle (_callbacks self);
                _subscribed_handlers := _subscribed_handlers self |};;
  self ← get_device;
  match _subscribed_handlers self !! value_handle with
  | Some _ =>
      put_device {| _services := _services self;
                    _callbacks := _callbacks self;
                    _subscribed_handlers :=
                      delete value_handle (_subscribed_handlers self) |};;
      extern (Write characteristic_config_handle properties false)
             (char_write_handle characteristic_config_handle properties false)
  | None => ret tt
  end.

Definition receive_notification (h : Z) (value : bytes) : M W unit :=
  self ← get_device;
  match _callbacks self !! h with
  | Some registered =>
      for_each (elements registered)
               (fun callback => extern (Call callback h value) (call callback h value))
  | None => ret tt
  end.

Definition char_write (uuid : uuid_arg) (value : bytes)
    (srvc_uuid : option uuid_arg) (wait_for_response : bool) : M W unit :=
  h ← get_handle uuid srvc_uuid;
  extern (Write h value wait_for_response)
         (char_write_handle h value wait_for_response).

End Methods.

(** ** Vocabulary of the statements *)

(** The UUID an argument stands for, when it has one. *)
Definition as_UUID `{UuidLib} (x : uuid_arg) : option UUID :=
  match x with
  | Str s => UUID_of_str s
  | Obj u => Some u
  end.

Definition as_srvc_UUID `{UuidLib} (x : option uuid_arg) : option (option UUID) :=
  match x with
  | Some a => Some <$> as_UUID a
  | None => Some None
  end.

(** [c] is a characteristic with UUID [char_uuid] in a service of the
    catalog, one with UUID [srvc_uuid] when a service is asked for. *)
Definition present (services : Services) (char_uuid : UUID)
    (srvc_uuid : option UUID) (c : Characteristic) : Prop :=
  ∃ k srvc k',
    (k, srvc) ∈ services ∧
    match srvc_uuid with Some u => svc_uuid srvc = u | None => True end ∧
    (k', c) ∈ characteristics srvc ∧
    chr_uuid c = char_uuid.

Definition is_write (e : event) : bool :=
  match e with Write _ _ _ => true | _ => false end.

Definition is_discover (e : event) : bool :=
  match e with Discover => true | _ => false end.

(** The configuration writes, and the number of refreshes, of a trace. *)
Definition writes (t : list event) : list event := List.filter is_write t.
Definition refreshes (t : list event) : nat := length (List.filter is_discover t).

(** [properties] of [subscribe]. *)
Definition properties_of (indication : bool) : bytes :=
  [if indication then x02 else x01; x00]%byte.

(** The device with another catalog. *)
Definition with_services (services : Services) (d : BLEDevice) : BLEDevice :=
  {| _services := services;
     _callbacks := _callbacks d;
     _subscribed_handlers := _subscribed_handlers d |}.

(** ** Running the model on concrete inputs *)

(** A small [UuidLib] to run the model on: it accepts exactly thirty-two
    hexadecimal digits, hyphens ignored, and prints them 8-4-4-4-12.  It is
    narrower than [uuid.UUID], which also takes braces and a [urn:uuid:]
    prefix; the theorems do not depend on it, being stated for every
    [UuidLib]. *)
Module SampleUuid.

Definition hex_value (a : ascii) : option N :=
  let n := N_of_ascii a in
  if (48 <=? n)%N && (n <=? 57)%N then Some (n - 48)%N
  else if (97 <=? n)%N && (n <=? 102)%N then Some (n - 87)%N
  else if (65 <=? n)%N && (n <=? 70)%N then Some (n - 55)%N
  else None.

Fixpoint hex_digits (s : string) (digits : nat) (acc : N) : option (nat * N) :=
  match s with
  | EmptyString => Some (digits, acc)
  | String a s' =>
      if Ascii.eqb a "-" then hex_digits s' digits acc
      else match hex_value a with
           | Some d => hex_digits s' (S digits) (16 * acc + d)%N
           | None => None
           end
  end.

Definition parse (s : string) : option UUID :=
  match hex_digits s 0%nat 0%N with
  | Some (32%nat, n) => Some (mkUUID n)
  | _ => None
  end.

Definition hex_char (d : N) : ascii :=
  ascii_of_N (if (d <? 10)%N then d + 48 else d + 87)%N.

Fixpoint to_hex (digits : nat) (n : N) (acc : string) : string :=
  match digits with
  | O => acc
  | S k => to_hex k (n / 16)%N (String (hex_char (n mod 16)%N) acc)
  end.

Definition print (u : UUID) : string :=
  let h := to_hex 32 (int u) "" in
  String.substring 0 8 h +:+ "-" +:+ String.substring 8 4 h +:+ "-" +:+ String.substring 12 4 h
  +:+ "-" +:+ String.substring 16 4 h +:+ "-" +:+ String.substring 20 12 h.

#[global] Instance lib : UuidLib :=
  {| UUID_of_str := parse; str_of_UUID := print |}.

End SampleUuid.

(** Scripted collaborators: what is on the air, whether the link is up, and
    which callbacks raise. *)
Module Scripted.

Record World := mkWorld {
  on_air : Services;
  link_up : bool;
  faulty : gset Callback
}.

#[global] Instance collaborators : Collaborators World := {|
  discover w :=
    (if link_up w then Ok (on_air w) else Raise (Raised "NotConnectedError"), w);
  char_write_handle h value wait w :=
    (if link_up w then Ok tt else Raise (Raised "NotConnectedError"), w);
  call cb h value w :=
    (if decide (cb ∈ faulty w) then Raise (Raised "callback failed") else Ok tt, w)
|}.

End Scripted.

Module Sample.
Import SampleUuid Scripted.

Definition heart_rate_service : string := "0000180d-0000-1000-8000-00805f9b34fb".
Definition heart_rate_measurement : string := "00002a37-0000-1000-8000-00805f9b34fb".
Definition battery_service : string := "0000180f-0000-1000-8000-00805f9b34fb".
Definition battery_level : string := "00002a19-0000-1000-8000-00805f9b34fb".

Definition uuid_of (s : string) : UUID := default (mkUUID 0) (parse s).

Definition catalog : Services :=
  [ (heart_rate_service,
     mkService (uuid_of heart_rate_service)
       [ (heart_rate_measurement,
          mkCharacteristic (uuid_of heart_rate_measurement) 10) ]);
    (battery_service,
     mkService (uuid_of battery_service)
       [ (battery_level, mkCharacteristic (uuid_of battery_level) 20) ]) ].

(** Two services that expose a characteristic with the same UUID. *)
Definition twin_catalog : Services :=
  [ (heart_rate_service,
     mkService (uuid_of heart_rate_service)
       [ (heart_rate_measurement,
          mkCharacteristic (uuid_of heart_rate_measurement) 10) ]);
    (battery_service,
     mkService (uuid_of battery_service)
       [ (heart_rate_measurement,
          mkCharacteristic (uuid_of heart_rate_measurement) 20) ]) ].

Definition session (services on_air : Services) (link_up : bool)
    (faulty : gset Callback) : State World :=
  mkState {| _services := services; _callbacks := ∅; _subscribed_handlers := ∅ |}
          (mkWorld on_air link_up faulty) [].

Definition payload : bytes := [x06; x48]%byte.

(** A session that has the catalog cached, and the same one after
    [subscribe(heart_rate_measurement, heart_rate_service, callback 1)]. *)
Definition cached : State World := session catalog [] true ∅.

Definition subscribed : State World :=
  (subscribe (Str heart_rate_measurement) (Some (Str heart_rate_service))
             (Some 1%positive) false cached).2.

(** The link is down: every write raises. *)
Definition offline : State World := session catalog [] false ∅.



(** Both services of the catalog expose the characteristic; the one of
    the battery service (handle 20) is subscribed to. *)
Definition twin_subscribed : State World :=
  (subscribe (Str heart_rate_measurement) (Some (Str battery_service))
             (Some 1%positive) false (session twin_catalog [] true ∅)).2.

End Sample.

(** The device after [self._callbacks[h].add(cb)], when a callback is given. *)
Definition with_callback (h : Z) (callback : option Callback) (d : BLEDevice)
    : BLEDevice :=
  match callback with
  | Some cb => {| _services := _services d;
                  _callbacks := add_callback h cb (_callbacks d);
                  _subscribed_handlers := _subscribed_handlers d |}
  | None => d
  end.

(** [cb] is in the callback set of handle [h]. *)
Definition registered (d : BLEDevice) (h : Z) (cb : Callback) : Prop :=
  ∃ set : gset Callback, _callbacks d !! h = Some set ∧ cb ∈ set.

(** What a call with well-formed UUIDs does, by cases on the first search
    and on the answer of [discover]. *)
Definition resolved `{UuidLib} `{Collaborators W} (u : UUID) (ou : option UUID)
    (s : State W) : result Z * State W :=
  match __find_char (_services (device s)) u ou with
  | Some c => (Ok (handle c), s)
  | None =>
      match discover (world s) with
      | (Ok found, w) =>
          (match __find_char found u ou with
           | Some c => Ok (handle c)
           | None => Raise (BLEError (not_found_message u ou))
           end,
           mkState (with_services found (device s)) w (trace s ++ [Discover]))
      | (Raise e, w) => (Raise e, mkState (device s) w (trace s ++ [Discover]))
      end
  end.

(** ** Sequences of calls

    A client of the session: one call after the other, each one on the
    state the previous one left, whether it returned or raised. *)
Inductive request :=
| GetHandle (uuid : uuid_arg) (srvc_uuid : option uuid_arg)
| CharWrite (uuid : uuid_arg) (value : bytes) (srvc_uuid : option uuid_arg)
            (wait_for_response : bool)
| Subscribe (uuid : uuid_arg) (srvc_uuid : option uuid_arg)
            (callback : option Callback) (indication : bool)
| Unsubscribe (uuid : uuid_arg)
| Notify (h : Z) (value : bytes).

Definition serve `{UuidLib} `{Collaborators W} (r : request) (s : State W)
    : State W :=
  match r with
  | GetHandle x su => (get_handle x su s).2
  | CharWrite x v su wait => (char_write x v su wait s).2
  | Subscribe x su cb ind => (subscribe x su cb ind s).2
  | Unsubscribe x => (unsubscribe x s).2
  | Notify h v => (receive_notification h v s).2
  end.

Definition session_after `{UuidLib} `{Collaborators W} (requests : list request)
    (s : State W) : State W :=
  foldl (λ s r, serve r s) s requests.

(** The shape of the two tables: a callback set is never empty, and a
    recorded configuration is one of the two values [subscribe] writes. *)
Definition tables_ok (d : BLEDevice) : Prop :=
  (∀ h (set : gset Callback), _callbacks d !! h = Some set → set ≠ ∅) ∧
  (∀ h p, _subscribed_handlers d !! h = Some p →
          p = properties_of false ∨ p = properties_of true).

(** * Properties *)

(** ** The catalog search *)

Lemma find_in_service_Some chars u c :
  find_in_service chars u = Some c →
  ∃ k, (k, c) ∈ chars ∧ chr_uuid c = u.
Proof.
  induction chars as [|[k c'] chars IH]; simpl; [done|].
  case_decide as Hu.
  - intros [= <-]. exists k. split; [left | done].
  - intros Hf. destruct (IH Hf) as (k' & Hin & Hc).
    exists k'. split; [by right | done].
Qed.

Lemma find_in_service_None chars u :
  find_in_service chars u = None ↔ ∀ k c, (k, c) ∈ chars → chr_uuid c ≠ u.
Proof.
  induction chars as [|[k c'] chars IH]; simpl.
  - split; [|done]. intros _ k c Hin. by apply not_elem_of_nil in Hin.
  - case_decide as Hu.
    + split; [done|]. intros Hall. exfalso. eapply Hall; [left | done].
    + rewrite IH. split.
      * intros Hall k0 c0 [[= -> ->]|Hin]%elem_of_cons; [done | by eapply Hall].
      * intros Hall k0 c0 Hin. eapply Hall. by right.
Qed.

Lemma service_selected_spec ou srvc :
  service_selected ou srvc = true ↔
  match ou with Some u => svc_uuid srvc = u | None => True end.
Proof.
  destruct ou as [u|]; simpl; [|done].
  rewrite bool_decide_eq_true. split; congruence.
Qed.

Lemma find_char_Some services u ou c :
  __find_char services u ou = Some c → present services u ou c.
Proof.
  induction services as [|[k srvc] services IH]; simpl; [done|].
  assert (∀ c, present services u ou c → present ((k, srvc) :: services) u ou c)
    as Hweak.
  { intros c0 (k0 & s0 & k' & Hin & ?). exists k0, s0, k'.
    split; [by right | done]. }
  destruct (service_selected ou srvc) eqn:Hsel; [|by auto].
  destruct (find_in_service (characteristics srvc) u) as [c'|] eqn:Hf; [|by auto].
  intros [= <-]. apply find_in_service_Some in Hf as (k' & Hin & Hu).
  exists k, srvc, k'. split; [left|]. split; [|done].
  by apply service_selected_spec.
Qed.

Lemma find_char_None services u ou :
  __find_char services u ou = None ↔ ∀ c, ¬ present services u ou c.
Proof.
  induction services as [|[k srvc] services IH]; simpl.
  - split; [|done]. intros _ c (k0 & s0 & k' & Hin & _).
    by apply not_elem_of_nil in Hin.
  - destruct (service_selected ou srvc) eqn:Hsel.
    + destruct (find_in_service (characteristics srvc) u) as [c'|] eqn:Hf.
      * split; [done|]. intros Hall. exfalso.
        apply find_in_service_Some in Hf as (k' & Hin & Hu).
        apply (Hall c'). exists k, srvc, k'. split; [left|].
        split; [by apply service_selected_spec | done].
      * rewrite IH. split.
        -- intros Hall c (k0 & s0 & k' & [[= -> ->]|Hin]%elem_of_cons & Hs & Hc & Hu).
           ++ by eapply find_in_service_None.
           ++ apply (Hall c). by exists k0, s0, k'.
        -- intros Hall c (k0 & s0 & k' & Hin & ?). apply (Hall c).
           exists k0, s0, k'. split; [by right | done].
    + rewrite IH. split.
      * intros Hall c (k0 & s0 & k' & [[= -> ->]|Hin]%elem_of_cons & Hs & Hc & Hu).
        -- apply service_selected_spec in Hs. congruence.
        -- apply (Hall c). by exists k0, s0, k'.
      * intros Hall c (k0 & s0 & k' & Hin & ?). apply (Hall c).
        exists k0, s0, k'. split; [by right | done].
Qed.

Lemma find_char_present services u ou c0 :
  present services u ou c0 →
  ∃ c, __find_char services u ou = Some c ∧ present services u ou c.
Proof.
  intros Hp. destruct (__find_char services u ou) as [c|] eqn:Hf.
  - exists c. split; [done|]. by apply find_char_Some.
  - exfalso. by eapply find_char_None.
Qed.

(** ** Resolution: [get_handle] *)

Section Resolution.
Context `{UuidLib} {W : Type} `{Collaborators W}.
Implicit Types (s : State W) (u : UUID) (ou : option UUID).

Ltac run := unfold mbind, M_bind, bind, mret, M_ret, ret, raise, get_device,
              put_device, extern; simpl.

Lemma to_UUID_run x s :
  to_UUID x s = (match as_UUID x with Some u => Ok u | None => Raise ValueError end, s).
Proof. destruct x as [str|u]; simpl; [|done]. by destruct (UUID_of_str str). Qed.

(** A malformed characteristic UUID stops the call at once. *)
Lemma get_handle_bad_char x su s :
  as_UUID x = None → get_handle x su s = (Raise ValueError, s).
Proof. intros Hx. unfold get_handle. run. by rewrite to_UUID_run, Hx. Qed.

(** So does a malformed service UUID. *)
Lemma get_handle_bad_srvc x su s :
  as_srvc_UUID su = None → get_handle x su s = (Raise ValueError, s).
Proof.
  intros Hsu. destruct su as [y|]; simpl in Hsu; [|done].
  destruct (as_UUID y) eqn:Hy; [done|].
  unfold get_handle. run. rewrite to_UUID_run.
  destruct (as_UUID x); [|done]. by rewrite to_UUID_run, Hy.
Qed.

Lemma get_handle_run x su u ou s :
  as_UUID x = Some u → as_srvc_UUID su = Some ou →
  get_handle x su s = resolved u ou s.
Proof.
  intros Hx Hsu. unfold get_handle, resolved. run. rewrite to_UUID_run, Hx.
  destruct su as [y|]; simpl in Hsu.
  - rewrite to_UUID_run. destruct (as_UUID y); simpl in Hsu; [|done].
    injection Hsu as <-. destruct s as [d w t]; simpl.
    destruct (__find_char (_services d) u _) as [c|] eqn:Hf; simpl.
    + by rewrite Hf.
    + destruct (discover w) as [[found|e] w']; simpl; [|done].
      by destruct (__find_char found u _).
  - injection Hsu as <-. destruct s as [d w t]; simpl.
    destruct (__find_char (_services d) u _) as [c|] eqn:Hf; simpl.
    + by rewrite Hf.
    + destruct (discover w) as [[found|e] w']; simpl; [|done].
      by destruct (__find_char found u _).
Qed.

(** Resolution touches neither the callback sets nor the subscriptions, and
    calls [discover] at most once and nothing else. *)
Lemma get_handle_frame x su s :
  let out := get_handle x su s in
  _callbacks (device out.2) = _callbacks (device s) ∧
  _subscribed_handlers (device out.2) = _subscribed_handlers (device s) ∧
  (trace out.2 = trace s ∨ trace out.2 = trace s ++ [Discover]).
Proof.
  simpl. destruct (as_UUID x) as [u|] eqn:Hx;
    [|rewrite get_handle_bad_char by done; auto].
  destruct (as_srvc_UUID su) as [ou|] eqn:Hsu;
    [|rewrite get_handle_bad_srvc by done; auto].
  rewrite (get_handle_run _ _ u ou) by done. unfold resolved.
  destruct (__find_char _ u ou); [auto|].
  destruct (discover (world s)) as [[found|e] w']; simpl; auto.
Qed.

(** A handle that was resolved is found in the catalog the call leaves. *)
Lemma get_handle_Ok x su s vh s0 :
  get_handle x su s = (Ok vh, s0) →
  ∃ u ou c, as_UUID x = Some u ∧ as_srvc_UUID su = Some ou ∧
            __find_char (_services (device s0)) u ou = Some c ∧ handle c = vh.
Proof.
  destruct (as_UUID x) as [u|] eqn:Hx;
    [|by rewrite get_handle_bad_char by done].
  destruct (as_srvc_UUID su) as [ou|] eqn:Hsu;
    [|by rewrite get_handle_bad_srvc by done].
  rewrite (get_handle_run _ _ u ou) by done. unfold resolved.
  destruct (__find_char _ u ou) as [c|] eqn:Hf.
  - intros [= <- <-]. by exists u, ou, c.
  - destruct (discover (world s)) as [[found|e] w']; [|done].
    destruct (__find_char found u ou) as [c|] eqn:Hf'; [|done].
    intros [= <- <-]. by exists u, ou, c.
Qed.

(** Hence resolving the same pair again answers the same, silently. *)
Lemma get_handle_again x su s vh s0 :
  get_handle x su s = (Ok vh, s0) → get_handle x su s0 = (Ok vh, s0).
Proof.
  intros (u & ou & c & Hx & Hsu & Hf & <-)%get_handle_Ok.
  rewrite (get_handle_run _ _ u ou) by done. unfold resolved. by rewrite Hf.
Qed.

(** C7: when a characteristic with the requested UUID is in the current
    catalog (inside a service with the requested UUID, when one is given),
    [get_handle] returns the handle recorded for such a characteristic (the
    first one the search meets; the requested one as soon as the catalog
    leaves no choice of handle) and leaves the whole state as it was: the
    catalog is kept and [discover] is not called. *)
Theorem get_handle_present x su u ou c0 s :
  as_UUID x = Some u → as_srvc_UUID su = Some ou →
  present (_services (device s)) u ou c0 →
  (∃ c, present (_services (device s)) u ou c ∧
        __find_char (_services (device s)) u ou = Some c ∧
        get_handle x su s = (Ok (handle c), s)) ∧
  ((∀ c, present (_services (device s)) u ou c → handle c = handle c0) →
   get_handle x su s = (Ok (handle c0), s)).
Proof.
  intros Hx Hsu Hp. destruct (find_char_present _ _ _ _ Hp) as (c & Hf & Hc).
  assert (get_handle x su s = (Ok (handle c), s)) as Hrun.
  { rewrite (get_handle_run _ _ u ou) by done. unfold resolved. by rewrite Hf. }
  split.
  - by exists c.
  - intros Huniq. by rewrite Hrun, (Huniq c Hc).
Qed.

(** C1: when no characteristic of the current catalog matches the requested
    pair, [get_handle] calls [discover] exactly once.  If discovery answers
    with a catalog, that catalog replaces the snapshot, and the call returns
    the handle of a matching characteristic of the new catalog if there is
    one and otherwise raises [BLEError] with a message that spells out the
    requested characteristic UUID and service UUID.  (If [discover] itself
    raises, its exception is passed on and the device is left as it was.) *)
Theorem get_handle_absent x su u ou s :
  as_UUID x = Some u → as_srvc_UUID su = Some ou →
  (∀ c, ¬ present (_services (device s)) u ou c) →
  let out := get_handle x su s in
  trace out.2 = trace s ++ [Discover] ∧
  refreshes (trace out.2) = S (refreshes (trace s)) ∧
  match discover (world s) with
  | (Ok found, _) =>
      _services (device out.2) = found ∧
      ((∃ c, present found u ou c ∧ out.1 = Ok (handle c)) ∨
       ((∀ c, ¬ present found u ou c) ∧
        out.1 = Raise (BLEError
                  ("No characteristic found matching " +:+ str_of_UUID u +:+ " " +:+
                   match ou with Some v => str_of_UUID v | None => "" end))))
  | (Raise e, _) => out.1 = Raise e ∧ device out.2 = device s
  end.
Proof.
  intros Hx Hsu Habs. simpl. apply find_char_None in Habs.
  rewrite (get_handle_run _ _ u ou) by done. unfold resolved. rewrite Habs.
  assert (∀ t : list event, refreshes (t ++ [Discover]) = S (refreshes t)) as Hcount.
  { intros t. unfold refreshes. rewrite List.filter_app, length_app. simpl. lia. }
  destruct (discover (world s)) as [[found|e] w']; simpl.
  - split; [done|]. split; [apply Hcount|]. split; [done|].
    destruct (__find_char found u ou) as [c|] eqn:Hf.
    + left. exists c. split; [by apply find_char_Some | done].
    + right. split; [by apply find_char_None | done].
  - split; [done|]. split; [apply Hcount | done].
Qed.

(** C9: a characteristic UUID given as a string that [UUID(...)] rejects
    makes [get_handle] raise [ValueError] with the state untouched, whatever
    the catalog holds: nothing is searched and [discover] is not called.  A
    service UUID given as such a string does the same. *)
Theorem get_handle_malformed (str : string) :
  UUID_of_str str = None →
  (∀ su s, get_handle (Str str) su s = (Raise ValueError, s)) ∧
  (∀ x s, get_handle x (Some (Str str)) s = (Raise ValueError, s)).
Proof.
  intros Hbad. split.
  - intros su s. by apply get_handle_bad_char.
  - intros x s. apply get_handle_bad_srvc. simpl. by rewrite Hbad.
Qed.

End Resolution.

Lemma get_handle_present_witness :
  get_handle (Str Sample.heart_rate_measurement) (Some (Str Sample.heart_rate_service))
    (Sample.session Sample.catalog [] false ∅)
  = (Ok 10, Sample.session Sample.catalog [] false ∅).
Proof.
  refine (proj2 (get_handle_present
    (Str Sample.heart_rate_measurement) (Some (Str Sample.heart_rate_service))
    (Sample.uuid_of Sample.heart_rate_measurement)
    (Some (Sample.uuid_of Sample.heart_rate_service))
    (mkCharacteristic (Sample.uuid_of Sample.heart_rate_measurement) 10)
    (Sample.session Sample.catalog [] false ∅) _ _ _) _).
  - reflexivity.
  - reflexivity.
  - apply find_char_Some. reflexivity.
  - intros c (k & srvc & k' & Hin & Hs & Hc & _). simpl in Hin.
    apply elem_of_cons in Hin as [[= -> ->]|Hin].
    + simpl in Hc. apply elem_of_cons in Hc as [[= -> ->]|Hc]; [done|].
      by apply not_elem_of_nil in Hc.
    + apply elem_of_cons in Hin as [[= -> ->]|Hin]; [discriminate Hs|].
      by apply not_elem_of_nil in Hin.
Defined.

Lemma get_handle_absent_witness :
  let out := get_handle (Str Sample.battery_level) None
               (Sample.session [] Sample.catalog true ∅) in
  trace out.2 = [Discover] ∧ _services (device out.2) = Sample.catalog ∧
  out.1 = Ok 20.
Proof.
  pose proof (get_handle_absent
    (Str Sample.battery_level) None (Sample.uuid_of Sample.battery_level) None
    (Sample.session [] Sample.catalog true ∅) eq_refl eq_refl) as Hthm.
  simpl in Hthm. destruct Hthm as (Ht & _ & Hs & _).
  - intros c (k & srvc & k' & Hin & _). by apply not_elem_of_nil in Hin.
  - split; [exact Ht|]. split; [exact Hs | reflexivity].
Defined.

Lemma get_handle_malformed_witness :
  get_handle (Str "2a37") None (Sample.session Sample.catalog [] true ∅)
  = (Raise ValueError, Sample.session Sample.catalog [] true ∅).
Proof. apply (get_handle_malformed "2a37"). reflexivity. Defined.

(** ** Subscriptions: [subscribe] and [unsubscribe] *)

Section Subscription.
Context `{UuidLib} {W : Type} `{Collaborators W}.
Implicit Types (s : State W) (u : UUID) (ou : option UUID).

Ltac run := unfold mbind, M_bind, bind, mret, M_ret, ret, raise, get_device,
              put_device, extern; simpl.

Lemma writes_snoc_discover t : writes (t ++ [Discover]) = writes t.
Proof. unfold writes. rewrite List.filter_app. simpl. by rewrite app_nil_r. Qed.

Lemma writes_snoc_write t h v b :
  writes (t ++ [Write h v b]) = writes t ++ [Write h v b].
Proof. unfold writes. by rewrite List.filter_app. Qed.

Lemma get_handle_writes x su s :
  writes (trace (get_handle x su s).2) = writes (trace s).
Proof.
  destruct (get_handle_frame x su s) as (_ & _ & [-> | ->]); [done|].
  apply writes_snoc_discover.
Qed.

Lemma subscribe_unresolved x su cb ind s e s0 :
  get_handle x su s = (Raise e, s0) → subscribe x su cb ind s = (Raise e, s0).
Proof. intros Hg. unfold subscribe, _notification_handles. run. by rewrite Hg. Qed.

(** The handle is already configured as asked: no write. *)
Lemma subscribe_skip x su cb ind s vh s0 :
  get_handle x su s = (Ok vh, s0) →
  _subscribed_handlers (device s0) !! vh = Some (properties_of ind) →
  subscribe x su cb ind s
  = (Ok tt, mkState (with_callback vh cb (device s0)) (world s0) (trace s0)).
Proof.
  intros Hg Hcfg. unfold subscribe, _notification_handles. run. rewrite Hg.
  destruct s0 as [d w t]. simpl in *.
  destruct cb as [cb|]; simpl; (case_decide as Hne; [by destruct Hne | done]).
Qed.

(** It is not: one write, and the record is updated only if the write returns. *)
Lemma subscribe_write x su cb ind s vh s0 :
  get_handle x su s = (Ok vh, s0) →
  _subscribed_handlers (device s0) !! vh ≠ Some (properties_of ind) →
  subscribe x su cb ind s
  = let d := with_callback vh cb (device s0) in
    let t := trace s0 ++ [Write (vh + 1) (properties_of ind) false] in
    match char_write_handle (vh + 1) (properties_of ind) false (world s0) with
    | (Ok _, w) =>
        (Ok tt,
         mkState {| _services := _services d;
                    _callbacks := _callbacks d;
                    _subscribed_handlers :=
                      <[vh := properties_of ind]> (_subscribed_handlers d) |} w t)
    | (Raise e, w) => (Raise e, mkState d w t)
    end.
Proof.
  intros Hg Hcfg. unfold subscribe, _notification_handles. run. rewrite Hg.
  destruct s0 as [d w t]. simpl in *.
  unfold properties_of in *.
  destruct cb as [cb|]; simpl;
    (case_decide as Hne; [|done]); cbn;
    by destruct (char_write_handle _ _ _ w) as [[[]|e] w'].
Qed.

Lemma with_callback_subscribed vh cb d :
  _subscribed_handlers (with_callback vh cb d) = _subscribed_handlers d.
Proof. by destruct cb. Qed.

Lemma with_callback_services vh cb d :
  _services (with_callback vh cb d) = _services d.
Proof. by destruct cb. Qed.

Lemma add_callback_registered vh cb (callbacks : gmap Z (gset Callback)) :
  ∃ set : gset Callback, add_callback vh cb callbacks !! vh = Some set ∧ cb ∈ set.
Proof.
  unfold add_callback. eexists. split; [apply lookup_insert_eq | set_solver].
Qed.

(** After a [subscribe] that returned, the handle it resolved is recorded
    with the properties asked for, and resolves again without discovery. *)
Lemma subscribe_Ok x su cb ind s s1 :
  subscribe x su cb ind s = (Ok tt, s1) →
  ∃ vh, get_handle x su s1 = (Ok vh, s1) ∧
        _subscribed_handlers (device s1) !! vh = Some (properties_of ind).
Proof.
  intros Hsub. destruct (get_handle x su s) as [[vh|e] s0] eqn:Hg;
    [|by rewrite (subscribe_unresolved _ _ _ _ _ _ _ Hg) in Hsub].
  exists vh.
  destruct (get_handle_Ok _ _ _ _ _ Hg) as (u & ou & c & Hx & Hsu & Hf & Hc).
  assert (∀ s', _services (device s') = _services (device s0) →
                get_handle x su s' = (Ok vh, s')) as Hsame.
  { intros s' Hs'. rewrite (get_handle_run _ _ u ou) by done.
    unfold resolved. by rewrite Hs', Hf, Hc. }
  destruct (decide (_subscribed_handlers (device s0) !! vh = Some (properties_of ind)))
    as [Hcfg|Hcfg].
  - rewrite (subscribe_skip _ _ _ _ _ _ _ Hg Hcfg) in Hsub.
    injection Hsub as <-. simpl. split.
    + apply Hsame. simpl. apply with_callback_services.
    + by rewrite with_callback_subscribed.
  - rewrite (subscribe_write _ _ _ _ _ _ _ Hg Hcfg) in Hsub. simpl in Hsub.
    destruct (char_write_handle _ _ _ (world s0)) as [[[]|e] w']; [|done].
    injection Hsub as <-. simpl. split.
    + apply Hsame. simpl. apply with_callback_services.
    + apply lookup_insert_eq.
Qed.

Lemma unsubscribe_unresolved x s e s0 :
  get_handle x None s = (Raise e, s0) → unsubscribe x s = (Raise e, s0).
Proof. intros Hg. unfold unsubscribe, _notification_handles. run. by rewrite Hg. Qed.

Lemma unsubscribe_run x s vh s0 :
  get_handle x None s = (Ok vh, s0) →
  unsubscribe x s
  = match _subscribed_handlers (device s0) !! vh with
    | Some _ =>
        let (r, w) := char_write_handle (vh + 1) [x00; x00]%byte false (world s0) in
        (r, mkState {| _services := _services (device s0);
                       _callbacks := delete vh (_callbacks (device s0));
                       _subscribed_handlers :=
                         delete vh (_subscribed_handlers (device s0)) |}
                    w (trace s0 ++ [Write (vh + 1) [x00; x00]%byte false]))
    | None =>
        (Ok tt, mkState {| _services := _services (device s0);
                           _callbacks := delete vh (_callbacks (device s0));
                           _subscribed_handlers := _subscribed_handlers (device s0) |}
                        (world s0) (trace s0))
    end.
Proof.
  intros Hg. unfold unsubscribe, _notification_handles. run. rewrite Hg.
  destruct s0 as [d w t]. cbn.
  by destruct (_subscribed_handlers d !! vh).
Qed.

(** What a [subscribe] that has to write puts on the trace. *)
Lemma subscribe_writes_once x su cb ind s vh s0 :
  get_handle x su s = (Ok vh, s0) →
  _subscribed_handlers (device s) !! vh ≠ Some (properties_of ind) →
  trace (subscribe x su cb ind s).2
    = trace s0 ++ [Write (vh + 1) (properties_of ind) false] ∧
  writes (trace (subscribe x su cb ind s).2)
    = writes (trace s) ++ [Write (vh + 1) (properties_of ind) false].
Proof.
  intros Hg Hcfg.
  pose proof (get_handle_frame x su s) as (_ & Hsub & _).
  pose proof (get_handle_writes x su s) as Hw. rewrite Hg in Hsub, Hw. simpl in *.
  rewrite (subscribe_write _ _ _ _ _ _ _ Hg) by (by rewrite Hsub). cbn.
  destruct (char_write_handle _ _ _ (world s0)) as [[[]|e] w']; cbn;
    by rewrite writes_snoc_write, Hw.
Qed.

(** C5: a [subscribe] that resolves the characteristic to [vh] and finds
    that [vh] is not yet recorded with the properties asked for makes one
    call outside the class after resolution: a write to handle [vh + 1] of
    the two bytes [02 00] (indication) or [01 00] (notification), with
    [wait_for_response=False]. *)
Theorem subscribe_write_target x su cb (ind : bool) s vh s0 :
  get_handle x su s = (Ok vh, s0) →
  _subscribed_handlers (device s) !! vh
    ≠ Some [if ind then x02 else x01; x00]%byte →
  let out := subscribe x su cb ind s in
  trace out.2
    = trace s0 ++ [Write (vh + 1) [if ind then x02 else x01; x00]%byte false] ∧
  writes (trace out.2)
    = writes (trace s) ++ [Write (vh + 1) [if ind then x02 else x01; x00]%byte false].
Proof. intros Hg Hcfg. exact (subscribe_writes_once x su cb ind s vh s0 Hg Hcfg). Qed.

(** A [subscribe] that follows one that returned, with the same UUIDs and
    the same kind of notification, returns without calling anything. *)
Lemma subscribe_again_silent x su cb1 cb2 ind s s1 :
  subscribe x su cb1 ind s = (Ok tt, s1) →
  ∃ s2, subscribe x su cb2 ind s1 = (Ok tt, s2) ∧ trace s2 = trace s1 ∧
        _subscribed_handlers (device s2) = _subscribed_handlers (device s1).
Proof.
  intros (vh & Hg & Hcfg)%subscribe_Ok.
  rewrite (subscribe_skip _ _ _ _ _ _ _ Hg Hcfg). eexists. split; [done|].
  simpl. by rewrite with_callback_subscribed.
Qed.

(** C2: take a handle not yet recorded with the properties asked for.  A
    first [subscribe] that returns has issued exactly one configuration
    write; a second [subscribe] with the same UUIDs and indication flag then
    returns too and issues none (it calls nothing at all), so that the two
    calls together put exactly one write on the wire. *)
Theorem subscribe_twice x su cb1 cb2 ind s vh s1 :
  (get_handle x su s).1 = Ok vh →
  _subscribed_handlers (device s) !! vh ≠ Some (properties_of ind) →
  subscribe x su cb1 ind s = (Ok tt, s1) →
  writes (trace s1) = writes (trace s) ++ [Write (vh + 1) (properties_of ind) false] ∧
  _subscribed_handlers (device s1) !! vh = Some (properties_of ind) ∧
  ∃ s2, subscribe x su cb2 ind s1 = (Ok tt, s2) ∧
        trace s2 = trace s1 ∧
        writes (trace s2)
          = writes (trace s) ++ [Write (vh + 1) (properties_of ind) false].
Proof.
  intros Hg Hcfg Hsub.
  destruct (get_handle x su s) as [r s0] eqn:Hg0. simpl in Hg. subst r.
  pose proof (subscribe_writes_once x su cb1 ind s vh s0 Hg0 Hcfg) as [_ Hw].
  rewrite Hsub in Hw. simpl in Hw.
  destruct (subscribe_again_silent _ _ _ cb2 _ _ _ Hsub) as (s2 & Hs2 & Ht & _).
  split; [exact Hw|]. split.
  - destruct (subscribe_Ok _ _ _ _ _ _ Hsub) as (vh' & Hg1 & Hrec).
    pose proof (get_handle_frame x su s) as (_ & Hframe & _).
    rewrite Hg0 in Hframe. simpl in Hframe.
    rewrite (subscribe_write _ _ _ _ _ _ _ Hg0) in Hsub by (by rewrite Hframe).
    cbn in Hsub.
    destruct (char_write_handle _ _ _ (world s0)) as [[[]|e] w']; [|done].
    injection Hsub as <-. simpl. apply lookup_insert_eq.
  - exists s2. split; [done|]. split; [done|]. by rewrite Ht.
Qed.

(** C10: when the configuration write of a [subscribe] that was given a
    callback raises, [subscribe] raises the same exception, the callback is
    by then in the callback set of the value handle and stays there, and the
    table of configured properties is as it was before the call. *)
Theorem subscribe_write_raises x su cb ind s vh s0 e w :
  get_handle x su s = (Ok vh, s0) →
  _subscribed_handlers (device s) !! vh ≠ Some (properties_of ind) →
  char_write_handle (vh + 1) (properties_of ind) false (world s0) = (Raise e, w) →
  let out := subscribe x su (Some cb) ind s in
  out.1 = Raise e ∧
  registered (device out.2) vh cb ∧
  _subscribed_handlers (device out.2) = _subscribed_handlers (device s) ∧
  _callbacks (device out.2) = add_callback vh cb (_callbacks (device s)).
Proof.
  intros Hg Hcfg Hwrite. simpl.
  pose proof (get_handle_frame x su s) as (Hcb & Hsub & _).
  rewrite Hg in Hcb, Hsub. simpl in *.
  rewrite (subscribe_write _ _ _ _ _ _ _ Hg) by (by rewrite Hsub).
  cbn. rewrite Hwrite. cbn. split; [done|]. split; [|by rewrite Hcb].
  apply add_callback_registered.
Qed.

(** C6: [unsubscribe] of a characteristic that resolves to [vh] drops the
    callback set of [vh].  If [vh] has a subscription record, the record is
    deleted and exactly one write is issued, of the bytes [00 00] to handle
    [vh + 1].  If it has none, the call returns normally, writes nothing and
    leaves the records alone; if no callback set was registered either, the
    device is exactly as resolution left it. *)
Theorem unsubscribe_spec x s vh s0 :
  get_handle x None s = (Ok vh, s0) →
  let out := unsubscribe x s in
  _callbacks (device out.2) = delete vh (_callbacks (device s)) ∧
  match _subscribed_handlers (device s) !! vh with
  | Some _ =>
      _subscribed_handlers (device out.2)
        = delete vh (_subscribed_handlers (device s)) ∧
      trace out.2 = trace s0 ++ [Write (vh + 1) [x00; x00]%byte false] ∧
      writes (trace out.2)
        = writes (trace s) ++ [Write (vh + 1) [x00; x00]%byte false]
  | None =>
      out.1 = Ok tt ∧
      trace out.2 = trace s0 ∧
      writes (trace out.2) = writes (trace s) ∧
      _subscribed_handlers (device out.2) = _subscribed_handlers (device s) ∧
      (_callbacks (device s) !! vh = None → device out.2 = device s0)
  end.
Proof.
  intros Hg. simpl.
  pose proof (get_handle_frame x None s) as (Hcb & Hsub & _).
  pose proof (get_handle_writes x None s) as Hw.
  rewrite Hg in Hcb, Hsub, Hw. simpl in *.
  rewrite (unsubscribe_run _ _ _ _ Hg), Hsub.
  destruct (_subscribed_handlers (device s) !! vh) as [old|] eqn:Hrec.
  - destruct (char_write_handle _ _ _ (world s0)) as [r w'] eqn:Hwr. cbn.
    rewrite Hcb, writes_snoc_write, Hw. done.
  - cbn. fold (writes (trace s0)). rewrite Hcb, Hw. repeat split; try done.
    intros Hnone. rewrite delete_id by done. rewrite <-Hcb, <-Hsub.
    by destruct (device s0).
Qed.

End Subscription.

(** ** Dispatch: [receive_notification] *)

Section Dispatch.
Context {W : Type} `{Collaborators W}.
Implicit Types (s : State W) (h : Z) (v : bytes) (l : list Callback).

Ltac run := unfold mbind, M_bind, bind, mret, M_ret, ret, raise, get_device,
              put_device, extern; simpl.

(** One step of the loop over the callback set. *)
Lemma for_each_cons h v cb l s :
  for_each (cb :: l) (λ c, extern (Call c h v) (call c h v)) s
  = match call cb h v (world s) with
    | (Ok _, w) =>
        for_each l (λ c, extern (Call c h v) (call c h v))
                 (mkState (device s) w (trace s ++ [Call cb h v]))
    | (Raise e, w) => (Raise e, mkState (device s) w (trace s ++ [Call cb h v]))
    end.
Proof. simpl. run. by destruct (call cb h v (world s)) as [[[]|e] w]. Qed.

(** The loop never touches the device. *)
Lemma for_each_device h v l s :
  device (for_each l (λ c, extern (Call c h v) (call c h v)) s).2 = device s.
Proof.
  revert s. induction l as [|cb l IH]; intros s; [done|].
  rewrite for_each_cons.
  destruct (call cb h v (world s)) as [[[]|e] w]; [|done]. by rewrite IH.
Qed.






End Dispatch.

(** ** The theorems at work on a sample session *)

Lemma subscribe_write_target_witness :
  let out := subscribe (Str Sample.heart_rate_measurement)
               (Some (Str Sample.heart_rate_service)) (Some 1%positive) false
               Sample.cached in
  trace out.2 = trace Sample.cached ++ [Write (10 + 1) [x01; x00]%byte false] ∧
  writes (trace out.2)
    = writes (trace Sample.cached) ++ [Write (10 + 1) [x01; x00]%byte false].
Proof.
  apply (subscribe_write_target (Str Sample.heart_rate_measurement)
           (Some (Str Sample.heart_rate_service)) (Some 1%positive) false
           Sample.cached 10 Sample.cached).
  - reflexivity.
  - discriminate.
Defined.

Lemma subscribe_twice_witness :
  writes (trace Sample.subscribed) = [Write 11 [x01; x00]%byte false] ∧
  ∃ s2, subscribe (Str Sample.heart_rate_measurement)
          (Some (Str Sample.heart_rate_service)) None false Sample.subscribed
        = (Ok tt, s2) ∧
        writes (trace s2) = [Write 11 [x01; x00]%byte false].
Proof.
  destruct (subscribe_twice (Str Sample.heart_rate_measurement)
              (Some (Str Sample.heart_rate_service)) (Some 1%positive) None false
              Sample.cached 10 Sample.subscribed)
    as (Hw & _ & s2 & Hs2 & _ & Hw2).
  - reflexivity.
  - discriminate.
  - reflexivity.
  - split; [exact Hw|]. exists s2. split; [exact Hs2 | exact Hw2].
Defined.

Lemma subscribe_write_raises_witness :
  let out := subscribe (Str Sample.heart_rate_measurement) None (Some 1%positive)
               true Sample.offline in
  out.1 = Raise (Raised "NotConnectedError") ∧
  registered (device out.2) 10 1%positive ∧
  _subscribed_handlers (device out.2) = ∅.
Proof.
  destruct (subscribe_write_raises (Str Sample.heart_rate_measurement) None
              1%positive true Sample.offline 10 Sample.offline
              (Raised "NotConnectedError") (world Sample.offline))
    as (Hr & Hreg & Hsub & _).
  - reflexivity.
  - discriminate.
  - reflexivity.
  - split; [exact Hr|]. split; [exact Hreg | exact Hsub].
Defined.

Lemma unsubscribe_spec_witness :
  let out := unsubscribe (Str Sample.heart_rate_measurement) Sample.subscribed in
  _callbacks (device out.2) = delete 10 (_callbacks (device Sample.subscribed)) ∧
  _subscribed_handlers (device out.2)
    = delete 10 (_subscribed_handlers (device Sample.subscribed)) ∧
  writes (trace out.2)
    = [Write 11 [x01; x00]%byte false; Write 11 [x00; x00]%byte false].
Proof.
  pose proof (unsubscribe_spec (Str Sample.heart_rate_measurement)
                Sample.subscribed 10 Sample.subscribed eq_refl) as Hthm.
  cbv zeta in Hthm. destruct Hthm as [Hcb Hrec].
  change (_subscribed_handlers (device Sample.subscribed) !! 10)
    with (Some [x01; x00]%byte) in Hrec.
  destruct Hrec as (Hsub & _ & Hw).
  split; [exact Hcb|]. split; [exact Hsub | exact Hw].
Defined.

(** C8 (the code does otherwise): [unsubscribe] takes the characteristic
    UUID only and resolves it in the whole catalog.  With the same
    characteristic UUID under two services, after a [subscribe] scoped to
    the second service (value handle 20, configured through handle 21), the
    only [unsubscribe] there is resolves to handle 10 of the first service,
    finds no record, writes nothing, and leaves the subscription of handle
    20 and its callback in place. *)
Theorem unsubscribe_searches_every_service :
  let out := unsubscribe (Str Sample.heart_rate_measurement) Sample.twin_subscribed in
  trace Sample.twin_subscribed = [Write 21 [x01; x00]%byte false] ∧
  (get_handle (Str Sample.heart_rate_measurement) (Some (Str Sample.battery_service))
              Sample.twin_subscribed).1 = Ok 20 ∧
  (get_handle (Str Sample.heart_rate_measurement) None Sample.twin_subscribed).1
    = Ok 10 ∧
  out.1 = Ok tt ∧
  trace out.2 = trace Sample.twin_subscribed ∧
  _subscribed_handlers (device out.2) !! 20 = Some [x01; x00]%byte ∧
  _callbacks (device out.2) !! 20 = Some {[1%positive]}.
Proof. cbv zeta. repeat split; by vm_compute. Qed.




(** * Further properties of the session *)

(** ** The catalog search *)

(** The search goes through the services in order: a match in the first
    part of a catalog hides every match in the rest, and only a miss there
    lets the rest be searched. *)
Theorem find_char_app services1 services2 u ou :
  __find_char (services1 ++ services2) u ou
  = match __find_char services1 u ou with
    | Some c => Some c
    | None => __find_char services2 u ou
    end.
Proof.
  induction services1 as [|[k srvc] services1 IH]; simpl; [done|].
  destruct (service_selected ou srvc); [|done].
  by destruct (find_in_service (characteristics srvc) u).
Qed.

(** The search is sound and complete: what it returns is a characteristic
    with the requested UUID in a service that qualifies, and it returns
    nothing only when the catalog has no such characteristic. *)
Theorem find_char_correct services u ou :
  (∀ c, __find_char services u ou = Some c → present services u ou c) ∧
  (__find_char services u ou = None ↔ ∀ c, ¬ present services u ou c).
Proof. split; [intros c; apply find_char_Some | apply find_char_None]. Qed.

(** A characteristic found inside a given service is also found, or
    hidden by an earlier one with the same UUID, when no service is given:
    the search without a service never misses where the scoped one hits. *)
Theorem find_char_scoped_unscoped services u v c :
  __find_char services u (Some v) = Some c →
  ∃ c', __find_char services u None = Some c' ∧ chr_uuid c' = u.
Proof.
  intros (k & srvc & k' & Hin & _ & Hc & Hu)%find_char_Some.
  destruct (find_char_present services u None c) as (c' & Hf & Hp).
  { by exists k, srvc, k'. }
  exists c'. split; [done|]. by destruct Hp as (? & ? & ? & _ & _ & _ & ?).
Qed.

Lemma find_char_scoped_unscoped_witness :
  ∃ c', __find_char Sample.twin_catalog
          (Sample.uuid_of Sample.heart_rate_measurement) None = Some c' ∧
        chr_uuid c' = Sample.uuid_of Sample.heart_rate_measurement.
Proof.
  apply (find_char_scoped_unscoped Sample.twin_catalog
           (Sample.uuid_of Sample.heart_rate_measurement)
           (Sample.uuid_of Sample.battery_service)
           (mkCharacteristic (Sample.uuid_of Sample.heart_rate_measurement) 20)).
  reflexivity.
Defined.

(** ** Resolution *)

Section MoreResolution.
Context `{UuidLib} {W : Type} `{Collaborators W}.
Implicit Types (s : State W) (u : UUID) (ou : option UUID).

(** [get_handle] never touches the callback sets or the subscription
    records and never writes; either it leaves the whole state as it was,
    or it has called [discover] exactly once and nothing else. *)
Theorem get_handle_effects x su s :
  let out := get_handle x su s in
  _callbacks (device out.2) = _callbacks (device s) ∧
  _subscribed_handlers (device out.2) = _subscribed_handlers (device s) ∧
  writes (trace out.2) = writes (trace s) ∧
  (out.2 = s ∨
   (trace out.2 = trace s ++ [Discover] ∧ world out.2 = (discover (world s)).2)).
Proof.
  cbv zeta. split; [apply get_handle_frame|]. split; [apply get_handle_frame|].
  split; [apply get_handle_writes|].
  destruct (as_UUID x) as [u|] eqn:Hx;
    [|rewrite get_handle_bad_char by done; auto].
  destruct (as_srvc_UUID su) as [ou|] eqn:Hsu;
    [|rewrite get_handle_bad_srvc by done; auto].
  rewrite (get_handle_run _ _ u ou) by done. unfold resolved.
  destruct (__find_char _ u ou); [auto|].
  destruct (discover (world s)) as [[found|e] w']; simpl; auto.
Qed.

(** Once a pair has been resolved, resolving it again gives the same
    handle from the cached catalog: no discovery, state unchanged. *)
Theorem get_handle_stable x su s vh s0 :
  get_handle x su s = (Ok vh, s0) → get_handle x su s0 = (Ok vh, s0).
Proof. apply get_handle_again. Qed.

(** A failed lookup is not remembered: after a call with well-formed UUIDs
    that raised, the same call asks the device again. *)
Theorem get_handle_retry_discovers x su s e :
  is_Some (as_UUID x) → is_Some (as_srvc_UUID su) →
  (get_handle x su s).1 = Raise e →
  let s0 := (get_handle x su s).2 in
  trace (get_handle x su s0).2 = trace s0 ++ [Discover].
Proof.
  intros [u Hx] [ou Hsu]. cbv zeta.
  rewrite !(get_handle_run _ _ u ou) by done. unfold resolved at 1 3 4.
  destruct (__find_char (_services (device s)) u ou) as [c|] eqn:Hf; [done|].
  destruct (discover (world s)) as [[found|e'] w'] eqn:Hd; simpl.
  - destruct (__find_char found u ou) as [c|] eqn:Hf'; [done|]. intros _.
    unfold resolved. simpl. rewrite Hf'.
    by destruct (discover w') as [[found'|e''] w''].
  - intros _. unfold resolved. simpl. rewrite Hf.
    by destruct (discover w') as [[found'|e''] w''].
Qed.

(** Only the UUIDs that the arguments stand for matter: a string and the
    [UUID] object it parses to are interchangeable. *)
Theorem get_handle_normal_form x x' su su' s :
  as_UUID x = as_UUID x' → as_srvc_UUID su = as_srvc_UUID su' →
  get_handle x su s = get_handle x' su' s.
Proof.
  intros Hx Hsu.
  destruct (as_UUID x) as [u|] eqn:Hu.
  - destruct (as_srvc_UUID su) as [ou|] eqn:Hou.
    + by rewrite !(get_handle_run _ _ u ou).
    + by rewrite !get_handle_bad_srvc.
  - by rewrite !get_handle_bad_char.
Qed.

End MoreResolution.

Lemma get_handle_stable_witness :
  let s0 := (get_handle (Str Sample.battery_level) None
               (Sample.session [] Sample.catalog true ∅)).2 in
  get_handle (Str Sample.battery_level) None s0 = (Ok 20, s0).
Proof.
  apply (get_handle_stable (Str Sample.battery_level) None
           (Sample.session [] Sample.catalog true ∅)).
  reflexivity.
Defined.

Lemma get_handle_retry_discovers_witness :
  let s0 := (get_handle (Str Sample.battery_level) None
               (Sample.session [] [] true ∅)).2 in
  trace (get_handle (Str Sample.battery_level) None s0).2 = trace s0 ++ [Discover].
Proof.
  apply (get_handle_retry_discovers (Str Sample.battery_level) None
           (Sample.session [] [] true ∅)
           (BLEError (not_found_message (Sample.uuid_of Sample.battery_level) None))).
  - by eexists.
  - by eexists.
  - reflexivity.
Defined.

Lemma get_handle_normal_form_witness :
  get_handle (Str Sample.battery_level) (Some (Str Sample.battery_service))
             Sample.cached
  = get_handle (Obj (Sample.uuid_of Sample.battery_level))
               (Some (Obj (Sample.uuid_of Sample.battery_service))) Sample.cached.
Proof. apply get_handle_normal_form; reflexivity. Defined.

(** ** Writes and subscriptions *)

Section MoreSubscription.
Context `{UuidLib} {W : Type} `{Collaborators W}.
Implicit Types (s : State W) (u : UUID) (ou : option UUID).

Ltac run := unfold mbind, M_bind, bind, mret, M_ret, ret, raise, get_device,
              put_device, extern; simpl.

Lemma char_write_run x v su wait s :
  char_write x v su wait s
  = match get_handle x su s with
    | (Ok vh, s0) =>
        let (r, w) := char_write_handle vh v wait (world s0) in
        (r, mkState (device s0) w (trace s0 ++ [Write vh v wait]))
    | (Raise e, s0) => (Raise e, s0)
    end.
Proof. unfold char_write. run. by destruct (get_handle x su s) as [[vh|e] s0]. Qed.

(** The tables a [subscribe] leaves, in terms of those it found. *)
Lemma subscribe_tables x su cb ind s vh :
  (get_handle x su s).1 = Ok vh →
  let out := subscribe x su cb ind s in
  _services (device out.2) = _services (device (get_handle x su s).2) ∧
  _callbacks (device out.2) = _callbacks (with_callback vh cb (device s)) ∧
  (_subscribed_handlers (device out.2) = _subscribed_handlers (device s) ∨
   _subscribed_handlers (device out.2)
     = <[vh := properties_of ind]> (_subscribed_handlers (device s))).
Proof.
  intros Hg. cbv zeta. destruct (get_handle x su s) as [r s0] eqn:Hg0.
  simpl in Hg. subst r.
  pose proof (get_handle_frame x su s) as (Hcb & Hsub & _).
  rewrite Hg0 in Hcb, Hsub. simpl in Hcb, Hsub.
  assert (_callbacks (with_callback vh cb (device s0))
          = _callbacks (with_callback vh cb (device s))) as Hcb'.
  { destruct cb; simpl; by rewrite Hcb. }
  destruct (decide (_subscribed_handlers (device s0) !! vh = Some (properties_of ind)))
    as [Hcfg|Hcfg].
  - rewrite (subscribe_skip _ _ _ _ _ _ _ Hg0 Hcfg). simpl.
    rewrite with_callback_services, with_callback_subscribed. auto.
  - rewrite (subscribe_write _ _ _ _ _ _ _ Hg0 Hcfg). cbn.
    destruct (char_write_handle _ _ _ (world s0)) as [[[]|e] w']; cbn;
      rewrite with_callback_services, with_callback_subscribed, Hsub; auto.
Qed.

(** The tables an [unsubscribe] leaves. *)
Lemma unsubscribe_tables x s vh :
  (get_handle x None s).1 = Ok vh →
  let out := unsubscribe x s in
  _services (device out.2) = _services (device (get_handle x None s).2) ∧
  _callbacks (device out.2) = delete vh (_callbacks (device s)) ∧
  _subscribed_handlers (device out.2) = delete vh (_subscribed_handlers (device s)).
Proof.
  intros Hg. cbv zeta. destruct (get_handle x None s) as [r s0] eqn:Hg0.
  simpl in Hg. subst r.
  pose proof (get_handle_frame x None s) as (Hcb & Hsub & _).
  rewrite Hg0 in Hcb, Hsub. simpl in Hcb, Hsub.
  rewrite (unsubscribe_run _ _ _ _ Hg0).
  destruct (_subscribed_handlers (device s0) !! vh) as [old|] eqn:Hrec.
  - destruct (char_write_handle _ _ _ (world s0)) as [r w']. cbn.
    by rewrite Hcb, Hsub.
  - cbn. rewrite Hcb. split; [done|]. split; [done|].
    rewrite <-Hsub. by rewrite delete_id.
Qed.

Lemma char_write_tables x v su wait s :
  _callbacks (device (char_write x v su wait s).2) = _callbacks (device s) ∧
  _subscribed_handlers (device (char_write x v su wait s).2)
    = _subscribed_handlers (device s).
Proof.
  rewrite char_write_run.
  pose proof (get_handle_frame x su s) as (Hcb & Hsub & _).
  destruct (get_handle x su s) as [[vh|e] s0]; simpl in *; [|done].
  by destruct (char_write_handle vh v wait (world s0)) as [r w].
Qed.

(** [char_write] puts one write on the wire when the characteristic
    resolves, to the resolved handle and with the value and the flag it was
    given, and none when it does not; it never changes the callback sets or
    the subscription records. *)
Theorem char_write_effects x v su wait s :
  let out := char_write x v su wait s in
  writes (trace out.2)
    = writes (trace s) ++ match (get_handle x su s).1 with
                          | Ok vh => [Write vh v wait]
                          | Raise _ => []
                          end ∧
  _callbacks (device out.2) = _callbacks (device s) ∧
  _subscribed_handlers (device out.2) = _subscribed_handlers (device s).
Proof.
  cbv zeta. rewrite char_write_run.
  pose proof (get_handle_frame x su s) as (Hcb & Hsub & _).
  pose proof (get_handle_writes x su s) as Hw.
  destruct (get_handle x su s) as [[vh|e] s0]; simpl in *.
  - destruct (char_write_handle vh v wait (world s0)) as [r w]. simpl.
    by rewrite writes_snoc_write, Hw.
  - by rewrite app_nil_r.
Qed.

(** When the characteristic cannot be resolved, [subscribe], [unsubscribe]
    and [char_write] raise what [get_handle] raised and do nothing more: no
    write, no callback registered, no record changed. *)
Theorem resolution_failure_propagates x su cb ind v wait s e :
  (get_handle x su s).1 = Raise e →
  let s0 := (get_handle x su s).2 in
  subscribe x su cb ind s = (Raise e, s0) ∧
  char_write x v su wait s = (Raise e, s0) ∧
  (su = None → unsubscribe x s = (Raise e, s0)) ∧
  _callbacks (device s0) = _callbacks (device s) ∧
  _subscribed_handlers (device s0) = _subscribed_handlers (device s) ∧
  writes (trace s0) = writes (trace s).
Proof.
  intros Hg. cbv zeta.
  pose proof (get_handle_frame x su s) as (Hcb & Hsub & _).
  pose proof (get_handle_writes x su s) as Hw.
  destruct (get_handle x su s) as [r s0] eqn:Hg0. simpl in *. subst r.
  split; [by apply subscribe_unresolved|].
  split; [by rewrite char_write_run, Hg0|].
  split; [|done]. intros ->. by apply unsubscribe_unresolved.
Qed.

(** [subscribe] and [unsubscribe] change the tables at the resolved value
    handle only: the callback set and the record of every other handle are
    as before. *)
Theorem subscription_frame x su cb ind s vh h :
  h ≠ vh →
  ((get_handle x su s).1 = Ok vh →
   _callbacks (device (subscribe x su cb ind s).2) !! h = _callbacks (device s) !! h ∧
   _subscribed_handlers (device (subscribe x su cb ind s).2) !! h
     = _subscribed_handlers (device s) !! h) ∧
  ((get_handle x None s).1 = Ok vh →
   _callbacks (device (unsubscribe x s).2) !! h = _callbacks (device s) !! h ∧
   _subscribed_handlers (device (unsubscribe x s).2) !! h
     = _subscribed_handlers (device s) !! h).
Proof.
  intros Hne. split; intros Hg.
  - destruct (subscribe_tables x su cb ind s vh Hg) as (_ & -> & Hsub). split.
    + destruct cb as [c|]; simpl; [|done]. unfold add_callback.
      by rewrite lookup_insert_ne.
    + destruct Hsub as [-> | ->]; [done|]. by rewrite lookup_insert_ne.
  - destruct (unsubscribe_tables x s vh Hg) as (_ & -> & ->).
    by rewrite !lookup_delete_ne.
Qed.

End MoreSubscription.

Lemma resolution_failure_propagates_witness :
  subscribe (Str Sample.battery_level) None (Some 1%positive) false
            (Sample.session [] [] true ∅)
  = (Raise (BLEError (not_found_message (Sample.uuid_of Sample.battery_level) None)),
     (get_handle (Str Sample.battery_level) None (Sample.session [] [] true ∅)).2).
Proof.
  apply (resolution_failure_propagates (Str Sample.battery_level) None
           (Some 1%positive) false Sample.payload false
           (Sample.session [] [] true ∅)).
  reflexivity.
Defined.

Lemma subscription_frame_witness :
  _callbacks (device Sample.subscribed) !! 20 = _callbacks (device Sample.cached) !! 20 ∧
  _subscribed_handlers (device Sample.subscribed) !! 20
    = _subscribed_handlers (device Sample.cached) !! 20.
Proof.
  refine (proj1 (subscription_frame (Str Sample.heart_rate_measurement)
           (Some (Str Sample.heart_rate_service)) (Some 1%positive) false
           Sample.cached 10 20 _) _).
  - discriminate.
  - reflexivity.
Defined.

(** ** Dispatch *)

Section MoreDispatch.
Context {W : Type} `{Collaborators W}.
Implicit Types (s : State W) (h : Z) (v : bytes) (l : list Callback).

Lemma receive_notification_run h v s :
  receive_notification h v s
  = match _callbacks (device s) !! h with
    | Some registered =>
        for_each (elements registered) (λ c, extern (Call c h v) (call c h v)) s
    | None => (Ok tt, s)
    end.
Proof.
  unfold receive_notification, mbind, M_bind, bind, get_device, mret, M_ret, ret.
  by destruct (_callbacks (device s) !! h).
Qed.

Lemma receive_notification_device h v s :
  device (receive_notification h v s).2 = device s.
Proof.
  rewrite receive_notification_run.
  destruct (_callbacks (device s) !! h); [apply for_each_device | done].
Qed.

(** The loop calls the callbacks of an initial stretch of the list, one
    call each, and does nothing else. *)
Lemma for_each_prefix h v l s :
  ∃ l1 l2, l = l1 ++ l2 ∧
    trace (for_each l (λ c, extern (Call c h v) (call c h v)) s).2
      = trace s ++ ((λ c, Call c h v) <$> l1).
Proof.
  revert s. induction l as [|cb l IH]; intros s.
  - exists [], []. split; [done|]. simpl. by rewrite app_nil_r.
  - rewrite for_each_cons.
    destruct (call cb h v (world s)) as [[[]|e] w].
    + destruct (IH (mkState (device s) w (trace s ++ [Call cb h v])))
        as (l1 & l2 & -> & Ht).
      exists (cb :: l1), l2. split; [done|]. rewrite Ht. simpl.
      by rewrite <-app_assoc.
    + exists [cb], l. split; [done|]. done.
Qed.

(** Whatever the callbacks do, a notification does nothing but call
    callbacks registered for its handle, with that handle and payload, and
    none of them twice: it never writes and never asks for discovery. *)
Theorem receive_notification_calls h v s :
  let out := receive_notification h v s in
  ∃ calls,
    trace out.2 = trace s ++ calls ∧
    NoDup calls ∧
    (∀ ev, ev ∈ calls → ∃ cb, registered (device s) h cb ∧ ev = Call cb h v) ∧
    writes (trace out.2) = writes (trace s) ∧
    refreshes (trace out.2) = refreshes (trace s).
Proof.
  cbv zeta. rewrite receive_notification_run.
  destruct (_callbacks (device s) !! h) as [set|] eqn:Hset.
  - destruct (for_each_prefix h v (elements set) s) as (l1 & l2 & Hl & Ht).
    assert (NoDup l1) as Hnd.
    { pose proof (NoDup_elements set) as Hnd. rewrite Hl in Hnd.
      by apply NoDup_app in Hnd as [? _]. }
    exists ((λ c, Call c h v) <$> l1). rewrite Ht.
    split; [done|]. split.
    { apply NoDup_fmap_2; [|done]. by intros c1 c2 [= ->]. }
    split.
    { intros ev (cb & -> & Hin)%list_elem_of_fmap. exists cb. split; [|done].
      exists set. split; [done|]. apply elem_of_elements. rewrite Hl.
      apply elem_of_app. by left. }
    clear Ht Hl Hnd. unfold writes, refreshes.
    rewrite !List.filter_app, length_app.
    assert (List.filter is_write ((λ c, Call c h v) <$> l1) = []) as ->.
    { by induction l1. }
    assert (List.filter is_discover ((λ c, Call c h v) <$> l1) = []) as ->.
    { by induction l1. }
    rewrite app_nil_r. simpl. split; [done | lia].
  - exists []. rewrite app_nil_r. split; [done|]. split; [constructor|].
    split; [|done]. by intros ev ?%not_elem_of_nil.
Qed.

End MoreDispatch.

(** ** How the calls compose *)

Section Composition.
Context `{UuidLib} {W : Type} `{Collaborators W}.
Implicit Types (s : State W) (u : UUID) (ou : option UUID).

(** A resolved pair resolves the same, from the cache, in every state
    that holds the catalog the resolution left. *)
Lemma get_handle_same_services x su s vh s' :
  (get_handle x su s).1 = Ok vh →
  _services (device s') = _services (device (get_handle x su s).2) →
  get_handle x su s' = (Ok vh, s').
Proof.
  destruct (get_handle x su s) as [r s0] eqn:Hg. simpl. intros Hr Hs. subst r.
  destruct (get_handle_Ok _ _ _ _ _ Hg) as (u & ou & c & Hx & Hsu & Hf & Hc).
  rewrite (get_handle_run _ _ u ou) by done. unfold resolved.
  by rewrite Hs, Hf, Hc.
Qed.

Lemma subscribe_resolves_again x su cb ind s vh :
  (get_handle x su s).1 = Ok vh →
  get_handle x su (subscribe x su cb ind s).2 = (Ok vh, (subscribe x su cb ind s).2).
Proof.
  intros Hg. apply (get_handle_same_services x su s); [done|].
  by destruct (subscribe_tables x su cb ind s vh Hg) as (-> & _).
Qed.

Lemma unsubscribe_resolves_again x s vh :
  (get_handle x None s).1 = Ok vh →
  get_handle x None (unsubscribe x s).2 = (Ok vh, (unsubscribe x s).2).
Proof.
  intros Hg. apply (get_handle_same_services x None s); [done|].
  by destruct (unsubscribe_tables x s vh Hg) as (-> & _).
Qed.

Lemma unsubscribe_writes x s vh :
  (get_handle x None s).1 = Ok vh →
  writes (trace (unsubscribe x s).2)
  = writes (trace s) ++ match _subscribed_handlers (device s) !! vh with
                        | Some _ => [Write (vh + 1) [x00; x00]%byte false]
                        | None => []
                        end.
Proof.
  destruct (get_handle x None s) as [r s0] eqn:Hg. simpl. intros ->.
  pose proof (get_handle_frame x None s) as (_ & Hsub & _).
  pose proof (get_handle_writes x None s) as Hw.
  rewrite Hg in Hsub, Hw. simpl in Hsub, Hw.
  rewrite (unsubscribe_run _ _ _ _ Hg), Hsub.
  destruct (_subscribed_handlers (device s) !! vh).
  - destruct (char_write_handle _ _ _ (world s0)) as [r w]. cbn.
    by rewrite writes_snoc_write, Hw.
  - cbn. fold (writes (trace s0)). by rewrite app_nil_r.
Qed.

(** Round trip: on a handle with no callback set and no record, a
    [subscribe] that returns followed by [unsubscribe] puts the two tables
    back as they were, and the wire has seen the enabling write followed by
    the write of [00 00], both to the configuration handle. *)
Theorem subscribe_unsubscribe_round_trip x cb ind s vh s1 :
  (get_handle x None s).1 = Ok vh →
  _callbacks (device s) !! vh = None →
  _subscribed_handlers (device s) !! vh = None →
  subscribe x None cb ind s = (Ok tt, s1) →
  let out := unsubscribe x s1 in
  _callbacks (device out.2) = _callbacks (device s) ∧
  _subscribed_handlers (device out.2) = _subscribed_handlers (device s) ∧
  writes (trace out.2)
    = writes (trace s) ++ [Write (vh + 1) (properties_of ind) false;
                           Write (vh + 1) [x00; x00]%byte false].
Proof.
  intros Hg Hcb Hrec Hsub. cbv zeta.
  pose proof (subscribe_resolves_again x None cb ind s vh Hg) as Hg1.
  pose proof (subscribe_tables x None cb ind s vh Hg) as (_ & Hcb1 & Hsub1).
  destruct (get_handle x None s) as [r s0] eqn:Hg0. simpl in Hg. subst r.
  destruct (subscribe_writes_once x None cb ind s vh s0 Hg0) as [_ Hw].
  { rewrite Hrec. discriminate. }
  destruct (subscribe_Ok _ _ _ _ _ _ Hsub) as (vh' & Hg1' & Hrec1).
  rewrite Hsub in Hg1, Hcb1, Hsub1, Hw. simpl in *.
  assert (vh' = vh) as -> by congruence.
  assert ((get_handle x None s1).1 = Ok vh) as Hg1'' by (by rewrite Hg1).
  destruct (unsubscribe_tables x s1 vh Hg1'') as (_ & -> & ->).
  rewrite (unsubscribe_writes x s1 vh Hg1''), Hrec1, Hw, Hcb1.
  split; [|split].
  - destruct cb as [c|]; simpl; [|by apply delete_id].
    unfold add_callback. by apply delete_insert_id.
  - destruct Hsub1 as [-> | ->]; [by apply delete_id | by apply delete_insert_id].
  - by rewrite <-app_assoc.
Qed.

(** After a [subscribe] that returned, asking for the other kind
    (indication instead of notification, or back) for the same
    characteristic writes again: the skip is for identical requests only. *)
Theorem subscribe_switch_kind x su cb1 cb2 ind s vh s1 :
  (get_handle x su s).1 = Ok vh →
  subscribe x su cb1 ind s = (Ok tt, s1) →
  writes (trace (subscribe x su cb2 (negb ind) s1).2)
  = writes (trace s1) ++ [Write (vh + 1) (properties_of (negb ind)) false].
Proof.
  intros Hg Hsub.
  pose proof (subscribe_resolves_again x su cb1 ind s vh Hg) as Hg1.
  destruct (subscribe_Ok _ _ _ _ _ _ Hsub) as (vh' & Hg1' & Hrec1).
  rewrite Hsub in Hg1. simpl in Hg1. assert (vh' = vh) as -> by congruence.
  apply (subscribe_writes_once x su cb2 (negb ind) s1 vh s1 Hg1).
  rewrite Hrec1. by destruct ind.
Qed.

(** Registering a callback that is already registered for the handle
    changes nothing in the callback sets: one registration, however often
    [subscribe] is called with it. *)
Theorem subscribe_same_callback x su cb ind s vh :
  (get_handle x su s).1 = Ok vh →
  registered (device s) vh cb →
  _callbacks (device (subscribe x su (Some cb) ind s).2) = _callbacks (device s).
Proof.
  intros Hg (set & Hset & Hin).
  destruct (subscribe_tables x su (Some cb) ind s vh Hg) as (_ & Hcb & _).
  rewrite Hcb. simpl. unfold add_callback. rewrite Hset. simpl.
  assert (set ∪ {[cb]} = set) as -> by set_solver.
  by apply insert_id.
Qed.

(** After an [unsubscribe] that resolved, whether or not its write went
    through, a notification for the value handle is dropped: nothing is
    called and the state stays as it is. *)
Theorem unsubscribe_then_notify x v s vh :
  (get_handle x None s).1 = Ok vh →
  receive_notification vh v (unsubscribe x s).2 = (Ok tt, (unsubscribe x s).2).
Proof.
  intros Hg. rewrite receive_notification_run.
  destruct (unsubscribe_tables x s vh Hg) as (_ & Hcb & _).
  by rewrite Hcb, lookup_delete_eq.
Qed.

(** A second [unsubscribe] of the same characteristic returns normally
    and changes nothing at all: no write, no discovery. *)
Theorem unsubscribe_twice x s vh :
  (get_handle x None s).1 = Ok vh →
  unsubscribe x (unsubscribe x s).2 = (Ok tt, (unsubscribe x s).2).
Proof.
  intros Hg. pose proof (unsubscribe_resolves_again x s vh Hg) as Hg1.
  destruct (unsubscribe_tables x s vh Hg) as (_ & Hcb & Hsub).
  destruct (unsubscribe x s) as [r s1]. simpl in *.
  rewrite (unsubscribe_run _ _ _ _ Hg1), Hsub, lookup_delete_eq, Hcb.
  rewrite delete_delete_eq, <-Hcb, <-Hsub.
  by destruct s1 as [[] ? ?].
Qed.


Lemma serve_tables_ok r s :
  tables_ok (device s) → tables_ok (device (serve r s)).
Proof.
  intros [Hcbs Hsubs]. destruct r as [x su|x v su wait|x su cb ind|x|h v]; simpl.
  - destruct (get_handle_frame x su s) as (Hcb & Hsub & _).
    split; intros ? ?; rewrite ?Hcb, ?Hsub; [apply Hcbs | apply Hsubs].
  - destruct (char_write_tables x v su wait s) as (Hcb & Hsub).
    split; intros ? ?; rewrite ?Hcb, ?Hsub; [apply Hcbs | apply Hsubs].
  - destruct (get_handle x su s) as [[vh|e] s0] eqn:Hg.
    + destruct (subscribe_tables x su cb ind s vh) as (_ & Hcb & Hsub);
        [by rewrite Hg|].
      split; intros h ?.
      * rewrite Hcb. destruct cb as [c|]; simpl; [|apply Hcbs].
        unfold add_callback. rewrite lookup_insert. case_decide; [|apply Hcbs].
        intros [= <-]. set_solver.
      * destruct Hsub as [-> | ->]; [apply Hsubs|].
        rewrite lookup_insert. case_decide; [|apply Hsubs].
        intros [= <-]. destruct ind; auto.
    + rewrite (subscribe_unresolved _ _ _ _ _ _ _ Hg). simpl.
      destruct (get_handle_frame x su s) as (Hcb & Hsub & _).
      rewrite Hg in Hcb, Hsub. simpl in *.
      split; intros ? ?; rewrite ?Hcb, ?Hsub; [apply Hcbs | apply Hsubs].
  - destruct (get_handle x None s) as [[vh|e] s0] eqn:Hg.
    + destruct (unsubscribe_tables x s vh) as (_ & Hcb & Hsub); [by rewrite Hg|].
      split; intros h ?; rewrite ?Hcb, ?Hsub; intros [_ ?]%lookup_delete_Some;
        [by eapply Hcbs | by eapply Hsubs].
    + rewrite (unsubscribe_unresolved _ _ _ _ Hg). simpl.
      destruct (get_handle_frame x None s) as (Hcb & Hsub & _).
      rewrite Hg in Hcb, Hsub. simpl in *.
      split; intros ? ?; rewrite ?Hcb, ?Hsub; [apply Hcbs | apply Hsubs].
  - by rewrite receive_notification_device.
Qed.

(** An invariant of the session: through any sequence of calls, returned
    or raised, no callback set is ever empty and every recorded
    configuration is [01 00] or [02 00] (never [00 00]). *)
Theorem tables_ok_preserved requests s :
  tables_ok (device s) → tables_ok (device (session_after requests s)).
Proof.
  revert s. induction requests as [|r requests IH]; intros s Hok; [done|].
  simpl. apply IH. by apply serve_tables_ok.
Qed.

End Composition.

Lemma subscribe_unsubscribe_round_trip_witness :
  let s1 := (subscribe (Str Sample.heart_rate_measurement) None (Some 1%positive)
               true Sample.cached).2 in
  let out := unsubscribe (Str Sample.heart_rate_measurement) s1 in
  _callbacks (device out.2) = ∅ ∧
  _subscribed_handlers (device out.2) = ∅ ∧
  writes (trace out.2)
    = [Write 11 [x02; x00]%byte false; Write 11 [x00; x00]%byte false].
Proof.
  apply (subscribe_unsubscribe_round_trip (Str Sample.heart_rate_measurement)
           (Some 1%positive) true Sample.cached 10).
  - reflexivity.
  - reflexivity.
  - reflexivity.
  - reflexivity.
Defined.

Lemma subscribe_switch_kind_witness :
  writes (trace (subscribe (Str Sample.heart_rate_measurement)
                   (Some (Str Sample.heart_rate_service)) None true
                   Sample.subscribed).2)
  = writes (trace Sample.subscribed) ++ [Write (10 + 1) [x02; x00]%byte false].
Proof.
  apply (subscribe_switch_kind (Str Sample.heart_rate_measurement)
           (Some (Str Sample.heart_rate_service)) (Some 1%positive) None false
           Sample.cached 10 Sample.subscribed).
  - reflexivity.
  - reflexivity.
Defined.

Lemma subscribe_same_callback_witness :
  _callbacks (device (subscribe (Str Sample.heart_rate_measurement)
                        (Some (Str Sample.heart_rate_service)) (Some 1%positive)
                        false Sample.subscribed).2)
  = _callbacks (device Sample.subscribed).
Proof.
  apply (subscribe_same_callback (Str Sample.heart_rate_measurement)
           (Some (Str Sample.heart_rate_service)) 1%positive false
           Sample.subscribed 10).
  - reflexivity.
  - exists {[1%positive]}. split; [reflexivity | set_solver].
Defined.

Lemma unsubscribe_then_notify_witness :
  receive_notification 10 Sample.payload
    (unsubscribe (Str Sample.heart_rate_measurement) Sample.subscribed).2
  = (Ok tt, (unsubscribe (Str Sample.heart_rate_measurement) Sample.subscribed).2).
Proof.
  apply (unsubscribe_then_notify (Str Sample.heart_rate_measurement)
           Sample.payload Sample.subscribed 10).
  reflexivity.
Defined.

Lemma unsubscribe_twice_witness :
  unsubscribe (Str Sample.heart_rate_measurement)
    (unsubscribe (Str Sample.heart_rate_measurement) Sample.subscribed).2
  = (Ok tt, (unsubscribe (Str Sample.heart_rate_measurement) Sample.subscribed).2).
Proof.
  apply (unsubscribe_twice (Str Sample.heart_rate_measurement) Sample.subscribed 10).
  reflexivity.
Defined.


Lemma tables_ok_preserved_witness :
  tables_ok (device (session_after
    [ Subscribe (Str Sample.heart_rate_measurement) None (Some 1%positive) false;
      Notify 10 Sample.payload;
      Subscribe (Str Sample.battery_level) None None true;
      Unsubscribe (Str Sample.heart_rate_measurement);
      CharWrite (Str Sample.battery_level) Sample.payload None true ]
    Sample.cached)).
Proof.
  apply tables_ok_preserved. split; intros h x Hx; simpl in Hx;
    by rewrite lookup_empty in Hx.
Defined.

(** ** A fresh session *)

(** The session starts with an empty catalog and empty tables, so the
    first lookup with well-formed UUIDs always goes to the device: one
    [discover] call; a handle it returns is that of a characteristic of the
    catalog [discover] answered with. *)
Theorem get_handle_fresh `{UuidLib} `{Collaborators W} x su u ou (s : State W) :
  device s = init →
  as_UUID x = Some u → as_srvc_UUID su = Some ou →
  let out := get_handle x su s in
  trace out.2 = trace s ++ [Discover] ∧
  ∀ vh, out.1 = Ok vh →
        ∃ found c, (discover (world s)).1 = Ok found ∧
                   present found u ou c ∧ handle c = vh ∧
                   _services (device out.2) = found.
Proof.
  intros Hinit Hx Hsu. cbv zeta.
  rewrite (get_handle_run _ _ u ou) by done. unfold resolved.
  rewrite Hinit. simpl.
  destruct (discover (world s)) as [[found|e] w]; simpl; [|by split].
  split; [done|]. intros vh.
  destruct (__find_char found u ou) as [c|] eqn:Hf; [|done].
  intros [= <-]. exists found, c. split; [done|].
  split; [by apply find_char_Some | done].
Qed.

Lemma get_handle_fresh_witness :
  let s := mkState init (Scripted.mkWorld Sample.catalog true ∅) [] in
  trace (get_handle (Str Sample.battery_level) None s).2 = trace s ++ [Discover].
Proof.
  apply (get_handle_fresh (Str Sample.battery_level) None
           (Sample.uuid_of Sample.battery_level) None
           (mkState init (Scripted.mkWorld Sample.catalog true ∅) []));
    reflexivity.
Defined.
